(** * Cross-venue arbitrage bot: fees, arbitrage solver, lexical matcher

    A shallow embedding of [fees.js], [arbitrage.js], the cosine similarity
    of [vector-matcher.js] and the read guard of
    [backend/routes/opportunities.js].

    JavaScript numbers are IEEE 754 binary64 values.  The numeric code is
    translated once, over an interface [Number] of the arithmetic the
    source uses, and run at two instances:
    - [float], the kernel's binary64 numbers with round-to-nearest-even:
      the arithmetic a JavaScript engine performs, bit for bit;
    - [Q], exact rationals: the arithmetic of the documented formulas.
    Properties of the control flow are proved for every instance; those of
    the order of profits in both; those that need the algebra of the
    formulas in exact arithmetic; values are computed in both. *)

From Stdlib Require Import ZArith QArith Qround Lia Lqa Bool List String Ascii.
From Stdlib Require Import Floats.
From stdpp Require Import base decidable list strings gmap sets.

Set Warnings "-inexact-float".

Local Open Scope Z_scope.

(** ** The numeric interface *)

Declare Scope num_scope.
Delimit Scope num_scope with num.

Class Number (num : Type) := {
  (** the decimal literal [m]e-[k], e.g. [dec 7 2] for [0.07] *)
  dec : Z -> nat -> num;
  (** the size of a [Set] or the length of an array, as a number *)
  of_size : nat -> num;
  nadd : num -> num -> num;
  nsub : num -> num -> num;
  nmul : num -> num -> num;
  ndiv : num -> num -> num;
  (** [Math.ceil] *)
  Math_ceil : num -> num;
  (** [Math.max] of two arguments *)
  Math_max : num -> num -> num;
  (** [a > b] and [a >= b] *)
  ngt : num -> num -> bool;
  nge : num -> num -> bool;
  (** [ToBoolean] on a number: false on zeros and [NaN] *)
  truthy : num -> bool
}.

Infix "+" := nadd : num_scope.
Infix "-" := nsub : num_scope.
Infix "*" := nmul : num_scope.
Infix "/" := ndiv : num_scope.
Infix ">?" := ngt (at level 70, no associativity) : num_scope.
Infix ">=?" := nge (at level 70, no associativity) : num_scope.

(** ** Binary64 *)

Module F64.

(** An integer as a double; exact below 2^53 in magnitude, which is the
    only range it is used in. *)
Definition of_Z (z : Z) : float :=
  match z with
  | Z0 => PrimFloat.zero
  | Zpos _ => PrimFloat.of_uint63 (Uint63.of_Z z)
  | Zneg p => PrimFloat.opp (PrimFloat.of_uint63 (Uint63.of_Z (Zpos p)))
  end.

(** A decimal literal with at most 15 significant digits: the quotient
    of two exactly represented integers is correctly rounded, so this is
    the double the literal denotes. *)
Definition dec (m : Z) (k : nat) : float :=
  PrimFloat.div (of_Z m) (of_Z (10 ^ Z.of_nat k)).

(** [Math.ceil]: NaN, zeros and infinities are returned as they are; a
    finite [(-1)^s * m * 2^e] with [e >= 0] is an integer already;
    otherwise the mantissa is divided by [2^-e] rounding up, and a zero
    result keeps the sign of the argument ([Math.ceil(-0.5)] is [-0]). *)
Definition ceil (x : float) : float :=
  match Prim2SF x with
  | S754_finite s m e =>
      if 0 <=? e then x
      else
        let c := - (Z.shiftr (- cond_Zopp s (Zpos m)) (- e)) in
        if c =? 0 then (if s then PrimFloat.neg_zero else PrimFloat.zero)
        else of_Z c
  | _ => x
  end.

(** [Math.max(a, b)]: NaN if either is NaN, and [+0] above [-0]. *)
Definition max (a b : float) : float :=
  if PrimFloat.is_nan a || PrimFloat.is_nan b then PrimFloat.nan
  else if PrimFloat.ltb a b then b
  else if PrimFloat.ltb b a then a
  else if PrimFloat.get_sign a then b else a.

Definition truthy (x : float) : bool :=
  negb (PrimFloat.is_zero x || PrimFloat.is_nan x).

End F64.

#[export] Instance float_Number : Number float := {|
  dec := F64.dec;
  of_size n := F64.of_Z (Z.of_nat n);
  nadd := PrimFloat.add;
  nsub := PrimFloat.sub;
  nmul := PrimFloat.mul;
  ndiv := PrimFloat.div;
  Math_ceil := F64.ceil;
  Math_max := F64.max;
  ngt a b := PrimFloat.ltb b a;
  nge a b := PrimFloat.leb b a;
  truthy := F64.truthy
|}.

(** ** Exact rationals

    No rounding, no overflow, no [NaN]; a division by zero, which
    JavaScript answers with an infinity or [NaN], is 0 here. *)

Module Exact.

Definition dec (m : Z) (k : nat) : Q := Qmake m (Z.to_pos (10 ^ Z.of_nat k)).

Definition ceil (x : Q) : Q := inject_Z (Qceiling x).

Definition max (a b : Q) : Q := if Qle_bool a b then b else a.

Definition gt (a b : Q) : bool := negb (Qle_bool a b).

Definition ge (a b : Q) : bool := Qle_bool b a.

Definition truthy (x : Q) : bool := negb (Qeq_bool x 0).

End Exact.

#[export] Instance Q_Number : Number Q := {|
  dec := Exact.dec;
  of_size n := inject_Z (Z.of_nat n);
  nadd := Qplus;
  nsub := Qminus;
  nmul := Qmult;
  ndiv := Qdiv;
  Math_ceil := Exact.ceil;
  Math_max := Exact.max;
  ngt := Exact.gt;
  nge := Exact.ge;
  truthy := Exact.truthy
|}.

(** ** [fees.js] *)

(** The ambient [CONFIG] object read by [fees.js]. *)
Record Config (num : Type) := {
  takerFeeRate : num;      (* CONFIG.fees.kalshi.takerFeeRate *)
  makerFeeRate : num;      (* CONFIG.fees.kalshi.makerFeeRate *)
  polyFeeRate : num        (* CONFIG.fees.polymarket.feeRate *)
}.
Arguments takerFeeRate {num} _.
Arguments makerFeeRate {num} _.
Arguments polyFeeRate {num} _.

(** Modelled from the spec: the configuration file that defines
    [CONFIG.fees] is not among the sources; the three rates are the ones
    the specification and the doc comments of [fees.js] document. *)
Definition CONFIG {num} `{Number num} : Config num := {|
  takerFeeRate := dec 7 2;
  makerFeeRate := dec 175 4;
  polyFeeRate := dec 2 2
|}.

Record Cost (num : Type) := {
  contractCost : num;
  fee : num;
  totalCost : num;
  maxPayout : num
}.
Arguments contractCost {num} _.
Arguments fee {num} _.
Arguments totalCost {num} _.
Arguments maxPayout {num} _.

(** The object [calculateArbitrageProfit] returns; [p_totalCost] is its
    field [totalCost]. *)
Record Profit (num : Type) := {
  p_totalCost : num;
  guaranteedPayout : num;
  netProfit : num;
  profitPercent : num;
  side1Cost : num;
  side2Cost : num;
  side1Fee : num;
  side2Fee : num
}.
Arguments p_totalCost {num} _.
Arguments guaranteedPayout {num} _.
Arguments netProfit {num} _.
Arguments profitPercent {num} _.
Arguments side1Cost {num} _.
Arguments side2Cost {num} _.
Arguments side1Fee {num} _.
Arguments side2Fee {num} _.

Section Fees.
Context {num : Type} `{Number num}.
Variable cfg : Config num.
Local Open Scope num_scope.

Definition calculateKalshiTakerFee (contracts price : num) : num :=
  let fee := takerFeeRate cfg * contracts * price * (dec 1 0 - price) in
  Math_ceil (fee * dec 100 0) / dec 100 0.

Definition calculateKalshiMakerFee (contracts price : num) : num :=
  let fee := makerFeeRate cfg * contracts * price * (dec 1 0 - price) in
  Math_ceil (fee * dec 100 0) / dec 100 0.

Definition calculatePolymarketFee (contracts price : num) : num :=
  let cost := contracts * price in
  let potentialProfit := contracts - cost in
  let fee := polyFeeRate cfg * potentialProfit in
  Math_max (dec 0 0) fee.

Definition calculateKalshiCost (contracts price : num) (isMaker : bool)
  : Cost num :=
  let contractCost := contracts * price in
  let fee := if isMaker then calculateKalshiMakerFee contracts price
             else calculateKalshiTakerFee contracts price in
  {| contractCost := contractCost;
     fee := fee;
     totalCost := contractCost + fee;
     maxPayout := contracts |}.

Definition calculatePolymarketCost (contracts price : num) : Cost num :=
  let contractCost := contracts * price in
  let fee := calculatePolymarketFee contracts price in
  {| contractCost := contractCost;
     fee := fee;
     totalCost := contractCost + fee;
     maxPayout := contracts |}.

Definition calculateArbitrageProfit (side1 side2 : Cost num) : Profit num :=
  let totalCost' := totalCost side1 + totalCost side2 in
  let guaranteedPayout := maxPayout side1 in
  let netProfit := guaranteedPayout - totalCost' in
  let profitPercent := (netProfit / totalCost') * dec 100 0 in
  {| p_totalCost := totalCost';
     guaranteedPayout := guaranteedPayout;
     netProfit := netProfit;
     profitPercent := profitPercent;
     side1Cost := totalCost side1;
     side2Cost := totalCost side2;
     side1Fee := fee side1;
     side2Fee := fee side2 |}.

End Fees.

(** ** [arbitrage.js]: the arbitrage solver *)

(** A market object, with the fields [arbitrage.js] reads.  [None] is a
    field that is absent ([undefined]). *)
Record Market (num : Type) := {
  id : string;
  title : option string;
  question : option string;
  yes_price : option num;
  price : option num
}.
Arguments id {num} _.
Arguments title {num} _.
Arguments question {num} _.
Arguments yes_price {num} _.
Arguments price {num} _.

(** The object [checkArbitrageOpportunity] returns; [profit] holds the
    fields spread into it by [...profit]. *)
Record Opportunity (num : Type) := {
  platform1 : string;
  side1 : string;
  price1 : num;
  contracts1 : num;
  cost1 : Cost num;
  platform2 : string;
  side2 : string;
  price2 : num;
  contracts2 : num;
  cost2 : Cost num;
  profit : Profit num
}.
Arguments platform1 {num} _.
Arguments side1 {num} _.
Arguments price1 {num} _.
Arguments contracts1 {num} _.
Arguments cost1 {num} _.
Arguments platform2 {num} _.
Arguments side2 {num} _.
Arguments price2 {num} _.
Arguments contracts2 {num} _.
Arguments cost2 {num} _.
Arguments profit {num} _.

Section Arbitrage.
Context {num : Type} `{Number num}.
Variable cfg : Config num.
Local Open Scope num_scope.

(** [a || b] on fields holding a number or nothing. *)
Definition js_or (a b : option num) : option num :=
  match a with
  | Some x => if truthy x then a else b
  | None => b
  end.

(** [m.yes_price || m.price || 0.5] *)
Definition yesPrice (m : Market num) : num :=
  default (dec 5 1) (js_or (js_or (yes_price m) (price m)) (Some (dec 5 1))).

(** [Array.prototype.sort(compare)] as a stable insertion sort: each
    element moves left past the elements [y] of the sorted prefix with
    [compare(y, x) > 0] (a [NaN] from the comparator is not [> 0]).  The
    prefix is kept reversed, rightmost element first.  The arrays sorted
    here have at most two elements, on which every stable sort that follows
    the sign of the comparator gives this result. *)
Fixpoint sort_insert {A} (compare : A -> A -> num) (x : A) (rp : list A)
  : list A :=
  match rp with
  | [] => [x]
  | y :: rp' => if compare y x >? dec 0 0 then y :: sort_insert compare x rp'
                else x :: rp
  end.

Definition Array_sort {A} (compare : A -> A -> num) (l : list A) : list A :=
  rev (fold_left (fun rp x => sort_insert compare x rp) l []).

Definition checkArbitrageOpportunity
    (platform1 side1 : string) (price1 : num)
    (platform2 side2 : string) (price2 : num)
    (investment : num) : option (Opportunity num) :=
  let totalPrice := price1 + price2 in
  let contracts := investment / totalPrice in
  let cost1 := if String.eqb platform1 "kalshi"
               then calculateKalshiCost cfg contracts price1 false
               else calculatePolymarketCost cfg contracts price1 in
  let cost2 := if String.eqb platform2 "kalshi"
               then calculateKalshiCost cfg contracts price2 false
               else calculatePolymarketCost cfg contracts price2 in
  let totalCost' := totalCost cost1 + totalCost cost2 in
  if totalCost' >? investment then
    let contracts := contracts * (investment / totalCost') in
    let adjustedCost1 := if String.eqb platform1 "kalshi"
                         then calculateKalshiCost cfg contracts price1 false
                         else calculatePolymarketCost cfg contracts price1 in
    let adjustedCost2 := if String.eqb platform2 "kalshi"
                         then calculateKalshiCost cfg contracts price2 false
                         else calculatePolymarketCost cfg contracts price2 in
    let profit := calculateArbitrageProfit adjustedCost1 adjustedCost2 in
    if netProfit profit >? dec 0 0 then
      Some {| platform1 := platform1; side1 := side1; price1 := price1;
              contracts1 := contracts; cost1 := adjustedCost1;
              platform2 := platform2; side2 := side2; price2 := price2;
              contracts2 := contracts; cost2 := adjustedCost2;
              profit := profit |}
    else None
  else
    let profit := calculateArbitrageProfit cost1 cost2 in
    if netProfit profit >? dec 0 0 then
      Some {| platform1 := platform1; side1 := side1; price1 := price1;
              contracts1 := contracts; cost1 := cost1;
              platform2 := platform2; side2 := side2; price2 := price2;
              contracts2 := contracts; cost2 := cost2;
              profit := profit |}
    else None.

Definition calculateArbitrage (kalshiMarket polyMarket : Market num)
    (investment : num) : option (Opportunity num) :=
  let kalshiYesPrice := yesPrice kalshiMarket in
  let kalshiNoPrice := dec 1 0 - kalshiYesPrice in
  let polyYesPrice := yesPrice polyMarket in
  let polyNoPrice := dec 1 0 - polyYesPrice in
  let opportunities := [] in
  let opp1 := checkArbitrageOpportunity
                "kalshi" "yes" kalshiYesPrice
                "polymarket" "no" polyNoPrice investment in
  let opportunities := opportunities ++ option_list opp1 in
  let opp2 := checkArbitrageOpportunity
                "kalshi" "no" kalshiNoPrice
                "polymarket" "yes" polyYesPrice investment in
  let opportunities := opportunities ++ option_list opp2 in
  head (Array_sort
          (fun a b => netProfit (profit b) - netProfit (profit a))
          opportunities).

(** The cost of [contracts] at [price] on a platform: the conditional
    [checkArbitrageOpportunity] writes out four times. *)
Definition platformCost (platform : string) (contracts price : num)
  : Cost num :=
  if String.eqb platform "kalshi"
  then calculateKalshiCost cfg contracts price false
  else calculatePolymarketCost cfg contracts price.

(** The contract count [checkArbitrageOpportunity] settles on. *)
Definition finalContracts (platform1 : string) (price1 : num)
    (platform2 : string) (price2 : num) (investment : num) : num :=
  let contracts0 := investment / (price1 + price2) in
  let total0 := totalCost (platformCost platform1 contracts0 price1)
                + totalCost (platformCost platform2 contracts0 price2) in
  if total0 >? investment then contracts0 * (investment / total0)
  else contracts0.

(** A combination evaluated at its final contract count, profitable or
    not. *)
Definition evaluate (platform1 side1 : string) (price1 : num)
    (platform2 side2 : string) (price2 : num) (investment : num)
  : Opportunity num :=
  let contracts :=
    finalContracts platform1 price1 platform2 price2 investment in
  let c1 := platformCost platform1 contracts price1 in
  let c2 := platformCost platform2 contracts price2 in
  {| platform1 := platform1; side1 := side1; price1 := price1;
     contracts1 := contracts; cost1 := c1;
     platform2 := platform2; side2 := side2; price2 := price2;
     contracts2 := contracts; cost2 := c2;
     profit := calculateArbitrageProfit c1 c2 |}.

End Arbitrage.

(** ** Strings and regular expressions

    Titles are strings of code units below 256.  The regular expressions
    of [arbitrage.js] are written as data and run by a backtracking matcher
    with the priorities of ECMAScript: greedy quantifiers, alternatives
    from left to right. *)

Module Str.

Definition code (c : ascii) : nat := nat_of_ascii c.

Definition between (lo hi : nat) (c : ascii) : bool :=
  (lo <=? code c)%nat && (code c <=? hi)%nat.

Definition is_digit : ascii -> bool := between 48 57.       (* \d, [0-9] *)
Definition is_lower : ascii -> bool := between 97 122.      (* [a-z] *)
Definition is_upper : ascii -> bool := between 65 90.       (* [A-Z] *)

(** [\w] *)
Definition is_word (c : ascii) : bool :=
  is_lower c || is_upper c || is_digit c || (code c =? 95)%nat.

(** [\s], and the characters [trim] strips: TAB, LF, VT, FF, CR, SP and
    NBSP are the ones below 256. *)
Definition is_space (c : ascii) : bool :=
  between 9 13 c || (code c =? 32)%nat || (code c =? 160)%nat.

(** [toLowerCase] on one code unit: A-Z and the upper-case letters of
    Latin-1 (192-222 without the multiplication sign) move up by 32. *)
Definition lower (c : ascii) : ascii :=
  if is_upper c || (between 192 222 c && negb (code c =? 215)%nat)
  then ascii_of_nat (code c + 32) else c.

Definition toLowerCase (s : list ascii) : list ascii := map lower s.

Fixpoint drop_space (s : list ascii) : list ascii :=
  match s with
  | c :: s' => if is_space c then drop_space s' else s
  | [] => []
  end.

Definition trim (s : list ascii) : list ascii :=
  rev (drop_space (rev (drop_space s))).

(** [s.startsWith(t)] *)
Fixpoint starts_with (t s : list ascii) : bool :=
  match t, s with
  | [], _ => true
  | a :: t', b :: s' => if ascii_dec a b then starts_with t' s' else false
  | _ :: _, [] => false
  end.

(** [s.includes(t)] *)
Fixpoint includes (s t : list ascii) : bool :=
  starts_with t s ||
  match s with
  | [] => false
  | _ :: s' => includes s' t
  end.

Inductive re :=
| Eps
| Chr (p : ascii -> bool)
| Seq (r1 r2 : re)
| Alt (r1 r2 : re)
| Star (r : re)
| WordB.

Definition Plus (r : re) : re := Seq r (Star r).
Definition Opt (r : re) : re := Alt r Eps.
Definition Lit (c : ascii) : re := Chr (fun x => if ascii_dec x c then true else false).

Definition word_before (prev : option ascii) : bool :=
  match prev with Some c => is_word c | None => false end.

Definition word_at (s : list ascii) : bool :=
  match s with c :: _ => is_word c | [] => false end.

(** [run r k prev s]: match [r] at the head of [s], the character before
    it being [prev], and hand what is left to the continuation [k]; the
    first success in priority order is the result.  An iteration of a
    star that consumes nothing is rejected, as in ECMAScript. *)
Fixpoint run {R} (r : re) (k : option ascii -> list ascii -> option R)
    (prev : option ascii) (s : list ascii) {struct r} : option R :=
  match r with
  | Eps => k prev s
  | Chr p =>
      match s with
      | c :: s' => if p c then k (Some c) s' else None
      | [] => None
      end
  | Seq r1 r2 => run r1 (run r2 k) prev s
  | Alt r1 r2 =>
      match run r1 k prev s with
      | Some x => Some x
      | None => run r2 k prev s
      end
  | Star r1 =>
      (fix star (n : nat) (prev : option ascii) (s : list ascii) : option R :=
         match n with
         | O => k prev s
         | S n' =>
             match run r1 (fun prev' s' =>
                             if (length s' <? length s)%nat
                             then star n' prev' s' else None) prev s with
             | Some x => Some x
             | None => k prev s
             end
         end) (length s) prev s
  | WordB => if xorb (word_before prev) (word_at s) then k prev s else None
  end.

(** The rest of [s] after a match of [r] at its head, if there is one. *)
Definition match_at (r : re) (prev : option ascii) (s : list ascii)
  : option (list ascii) :=
  run r (fun _ rest => Some rest) prev s.

(** [s.match(/r/g) || []]: the matches from left to right, each search
    starting where the last match ended; [skip] counts the characters
    still inside the last match. *)
Fixpoint scan (r : re) (prev : option ascii) (s : list ascii) (skip : nat)
  : list (list ascii) :=
  match s with
  | [] =>
      match skip, match_at r prev [] with
      | O, Some _ => [[]]
      | _, _ => []
      end
  | c :: s' =>
      match skip with
      | S n => scan r (Some c) s' n
      | O =>
          match match_at r prev s with
          | Some rest =>
              let n := (length s - length rest)%nat in
              take n s :: scan r (Some c) s' (n - 1)
          | None => scan r (Some c) s' 0
          end
      end
  end.

Definition match_all (r : re) (s : list ascii) : list (list ascii) :=
  scan r None s 0.

(** [s.split(/sep/)]: [cur] is the piece being read, in reverse. *)
Fixpoint split_go (sep : re) (prev : option ascii) (s cur : list ascii)
    (skip : nat) : list (list ascii) :=
  match s with
  | [] => [rev cur]
  | c :: s' =>
      match skip with
      | S n => split_go sep (Some c) s' cur n
      | O =>
          match match_at sep prev s with
          | Some rest =>
              let n := (length s - length rest)%nat in
              match n, cur with
              | O, [] => split_go sep (Some c) s' [c] 0
              | O, _ => rev cur :: split_go sep (Some c) s' [c] 0
              | S n', _ => rev cur :: split_go sep (Some c) s' [] n'
              end
          | None => split_go sep (Some c) s' (c :: cur) 0
          end
      end
  end.

Definition split (sep : re) (s : list ascii) : list (list ascii) :=
  match s with
  | [] => match match_at sep None [] with Some _ => [] | None => [[]] end
  | _ => split_go sep None s [] 0
  end.

End Str.

(** ** [arbitrage.js]: entity extraction and lexical similarity *)

Record Entities := {
  years : gset string;
  words : gset string;
  names : gset string;
  numbers : gset string;
  normalized : list ascii
}.

Module Pattern.
Import Str.

Definition digit : re := Chr is_digit.
Definition space : re := Chr is_space.

(** [/\b(20\d{2}|2100)\b/g] *)
Definition year : re :=
  Seq WordB
    (Seq (Alt (Seq (Lit "2") (Seq (Lit "0") (Seq digit digit)))
              (Seq (Lit "2") (Seq (Lit "1") (Seq (Lit "0") (Lit "0")))))
         WordB).

(** [[A-Z][a-z]+] *)
Definition capitalized : re := Seq (Chr is_upper) (Plus (Chr is_lower)).

(** [/\b[A-Z][a-z]+(?:\s+[A-Z][a-z]+)*\b/g] *)
Definition name : re :=
  Seq WordB
    (Seq capitalized
         (Seq (Star (Seq (Plus space) capitalized)) WordB)).

(** [/\b\d+(?:\.\d+)?\b/g] *)
Definition number : re :=
  Seq WordB
    (Seq (Plus digit)
         (Seq (Opt (Seq (Lit ".") (Plus digit))) WordB)).

(** [/\s+/] *)
Definition spaces : re := Plus space.

(** The characters [/[^a-z0-9\s]/g] leaves in place. *)
Definition kept (c : ascii) : bool := is_lower c || is_digit c || is_space c.

End Pattern.

Definition stopWords : gset string :=
  list_to_set
    ["will"; "be"; "the"; "a"; "an"; "in"; "on"; "at"; "to"; "for"; "of";
     "by"; "before"; "after"; "than"; "more"; "less"; "have"; "has"; "is";
     "are"; "was"; "were"; "been"; "being"].

Definition str (s : list ascii) : string := string_of_list_ascii s.

Definition extractKeyEntities (text : string) : Entities :=
  let text := list_ascii_of_string text in
  let normalized :=
    Str.trim (map (fun c => if Pattern.kept c then c else " "%char)
                  (Str.toLowerCase text)) in
  let years := Str.match_all Pattern.year normalized in
  let words :=
    filter (fun w => (2 < length w)%nat /\ str w ∉ stopWords)
           (Str.split Pattern.spaces normalized) in
  let names := Str.match_all Pattern.name text in
  let numbers := Str.match_all Pattern.number normalized in
  {| years := list_to_set (map str years);
     words := list_to_set (map str words);
     names := list_to_set (map (fun n => str (Str.toLowerCase n)) names);
     numbers := list_to_set (map str numbers);
     normalized := normalized |}.

(** [a || b] on strings that may be absent: the empty string is falsy. *)
Definition str_or (a : option string) (b : option string) : option string :=
  match a with
  | Some s => if String.eqb s "" then b else a
  | None => b
  end.

Record Match (num : Type) := {
  kalshi : Market num;
  polymarket : Market num;
  similarity : num;
  matchConfidence : string
}.
Arguments kalshi {num} _.
Arguments polymarket {num} _.
Arguments similarity {num} _.
Arguments matchConfidence {num} _.

Section Matching.
Context {num : Type} `{Number num}.
Local Open Scope num_scope.

(** [|a ∩ b| / |a ∪ b|] as the source computes it, 0 on an empty union. *)
Definition overlap (a b : gset string) : num :=
  let intersection := filter (fun x => x ∈ b) a in
  let union := a ∪ b in
  if (0 <? size union)%nat
  then of_size (size intersection) / of_size (size union)
  else dec 0 0.

Definition calculateSimilarity (str1 str2 : string) : num :=
  if String.eqb str1 "" || String.eqb str2 "" then dec 0 0 else
  let e1 := extractKeyEntities str1 in
  let e2 := extractKeyEntities str2 in
  (* Strategy 1: exact normalized match *)
  if bool_decide (normalized e1 = normalized e2) then dec 1 0 else
  (* Strategy 2: one is a substring of the other *)
  if Str.includes (normalized e1) (normalized e2)
     || Str.includes (normalized e2) (normalized e1)
  then dec 85 2 else
  (* Strategy 3: year matching *)
  if (0 <? size (years e1))%nat && (0 <? size (years e2))%nat
     && (size (filter (fun y => y ∈ years e2) (years e1)) =? 0)%nat
  then dec 0 0 else
  (* Strategy 4: name matching *)
  let nameScore :=
    if (0 <? size (names e1))%nat || (0 <? size (names e2))%nat
    then overlap (names e1) (names e2) else dec 0 0 in
  (* Strategy 5: word overlap *)
  let wordScore := overlap (words e1) (words e2) in
  (* Strategy 6: number matching *)
  let numberScore :=
    if (0 <? size (numbers e1))%nat || (0 <? size (numbers e2))%nat
    then overlap (numbers e1) (numbers e2) else dec 0 0 in
  (wordScore * dec 6 1) + (nameScore * dec 25 2) + (numberScore * dec 15 2).

(** [m.title || m.question || ''] *)
Definition titleOf (m : Market num) : string :=
  default "" (str_or (str_or (title m) (question m)) (Some "")).

(** The inner loop of [findMatchingMarkets]: the state is
    [(bestMatch, bestSimilarity)]. *)
Definition bestCandidate (usedPolyMarkets : gset string)
    (minSimilarity : num) (kalshiMarket : Market num)
    (polymarketMarkets : list (Market num))
  : option (Market num) * num :=
  fold_left
    (fun '(bestMatch, bestSimilarity) polyMarket =>
       if bool_decide (id polyMarket ∈ usedPolyMarkets)
       then (bestMatch, bestSimilarity)
       else
         let similarity :=
           calculateSimilarity (titleOf kalshiMarket) (titleOf polyMarket) in
         if (similarity >=? minSimilarity) && (similarity >? bestSimilarity)
         then (Some polyMarket, similarity)
         else (bestMatch, bestSimilarity))
    polymarketMarkets (None, dec 0 0).

Definition confidence (bestSimilarity : num) : string :=
  if bestSimilarity >=? dec 7 1 then "high"
  else if bestSimilarity >=? dec 5 1 then "medium" else "low".

(** The outer loop: the state is [(matches, usedPolyMarkets)]. *)
Definition matchStep (polymarketMarkets : list (Market num))
    (minSimilarity : num)
    (state : list (Match num) * gset string) (kalshiMarket : Market num)
  : list (Match num) * gset string :=
  let '(matches, usedPolyMarkets) := state in
  match bestCandidate usedPolyMarkets minSimilarity kalshiMarket
          polymarketMarkets with
  | (Some bestMatch, bestSimilarity) =>
      (matches ++ [{| kalshi := kalshiMarket;
                      polymarket := bestMatch;
                      similarity := bestSimilarity;
                      matchConfidence := confidence bestSimilarity |}],
       {[ id bestMatch ]} ∪ usedPolyMarkets)
  | (None, _) => (matches, usedPolyMarkets)
  end.

Definition findMatchingMarkets (kalshiMarkets polymarketMarkets
    : list (Market num)) (minSimilarity : num) : list (Match num) :=
  fst (fold_left (matchStep polymarketMarkets minSimilarity)
                 kalshiMarkets ([], ∅)).

End Matching.

(** ** [vector-matcher.js]: cosine similarity *)

(** A vector argument is [None] when it is absent ([undefined], [null]). *)
Definition cosineSimilarity (vec1 vec2 : option (list float)) : float :=
  match vec1, vec2 with
  | Some vec1, Some vec2 =>
      if negb (length vec1 =? length vec2)%nat then 0%float
      else
        let '(dotProduct, norm1, norm2) :=
          fold_left
            (fun '(dotProduct, norm1, norm2) '(a, b) =>
               (dotProduct + a * b, norm1 + a * a, norm2 + b * b)%float)
            (zip vec1 vec2) (0, 0, 0)%float in
        (dotProduct / (PrimFloat.sqrt norm1 * PrimFloat.sqrt norm2))%float
  | _, _ => 0%float
  end.

(** ** [backend/routes]: the read guard of the opportunities route *)

Module Routes.

(** Where a [POST /refresh] request stands: its handler suspends at the
    fetch of the two venues and at each of the two indexing calls, and
    other requests are served in between. *)
Inductive Refresh := Idle | Fetching | IndexingKalshi | IndexingPolymarket.

Definition refreshing (st : Refresh) : bool :=
  match st with Idle => false | _ => true end.

(** What [require('./system')] evaluates to: the router that
    [routes/system.js] exports, with the properties the module puts on
    it next to its routes. *)
Record SystemModule := {
  isIndexing : option (Refresh -> bool)
}.

(** [routes/system.js] ends in [module.exports = router] and assigns no
    [isIndexing] to it, nor to anything else. *)
Definition system : SystemModule := {| isIndexing := None |}.

Inductive Response :=
| Unavailable503     (* res.status(503) *)
| QueriesIndex.      (* goes on to findMatchesFromDb *)

(** [router.get('/')] of [routes/opportunities.js], up to the query:
    [if (system.isIndexing && system.isIndexing()) return 503]. *)
Definition getOpportunities (system : SystemModule) (st : Refresh)
  : Response :=
  match isIndexing system with
  | Some isIndexing => if isIndexing st then Unavailable503 else QueriesIndex
  | None => QueriesIndex
  end.

Inductive Event :=
| PostRefresh        (* a refresh request arrives *)
| Resume             (* the refresh handler resumes after an await *)
| GetOpportunities.  (* a read request arrives *)

(** One turn of the event loop: the new state and the response sent to a
    read request. *)
Definition step (st : Refresh) (e : Event) : Refresh * option Response :=
  match e with
  | PostRefresh => (Fetching, None)
  | Resume =>
      (match st with
       | Idle => Idle
       | Fetching => IndexingKalshi
       | IndexingKalshi => IndexingPolymarket
       | IndexingPolymarket => Idle
       end, None)
  | GetOpportunities => (st, Some (getOpportunities system st))
  end.

(** The responses to the read requests of a trace, each with whether a
    refresh was in progress when it was served. *)
Fixpoint serve (st : Refresh) (trace : list Event)
  : list (bool * Response) :=
  match trace with
  | [] => []
  | e :: trace' =>
      let '(st', r) := step st e in
      match r with
      | Some r => (refreshing st, r) :: serve st' trace'
      | None => serve st' trace'
      end
  end.

End Routes.

(** ** [mockData.js] *)

Section MockData.
Context {num : Type} `{Number num}.

Definition market (id title : string) (m : Z) (k : nat) : Market num :=
  {| id := id; title := Some title; question := Some title;
     yes_price := Some (dec m k); price := None |}.

Definition MOCK_kalshi : list (Market num) :=
  [ market "KXWARMING-50"
      "Will the world pass 2 degrees Celsius over pre-industrial levels before 2050?"
      79 2;
    market "KXMARSVRAIL-50"
      "Will a human land on Mars before California starts high-speed rail?"
      18 2;
    market "KXTRUMP-JAIL-25" "Will Trump be convicted before 2025?" 12 2 ].

(** The degree sign of the fourth title is the code unit 176. *)
Definition MOCK_polymarket : list (Market num) :=
  [ market "516717" "Nuclear weapon detonation in 2025?" 4 3;
    market "516719" "Russia x Ukraine ceasefire in 2025?" 175 4;
    market "516720" "Putin out as President of Russia in 2025?" 4 3;
    market "516800"
      ("Will the world pass 2" +:+ String (ascii_of_nat 176)
         "C warming before 2050?")
      75 2;
    market "516801"
      "Will humans land on Mars before high-speed rail in California?"
      22 2 ].

End MockData.

(** ** Vocabulary of the properties *)

(** A vector of zero norm: every component is [0] or [-0]. *)
Definition zeroVector (v : list float) : Prop :=
  Forall (fun x => PrimFloat.is_zero x = true) v.

(** The sums [cosineSimilarity] accumulates: dot product and squared
    norms. *)
Definition cosineStep : float * float * float -> float * float ->
                        float * float * float :=
  fun '(dotProduct, norm1, norm2) '(a, b) =>
    (dotProduct + a * b, norm1 + a * a, norm2 + b * b)%float.

Definition cosineSums (vec1 vec2 : list float) : float * float * float :=
  fold_left cosineStep (zip vec1 vec2) (0, 0, 0)%float.

Module SF.

(** Shapes of a binary64 value, read through its specification. *)
Definition zero (x : float) : Prop := exists s, Prim2SF x = S754_zero s.
Definition pzero (x : float) : Prop := Prim2SF x = S754_zero false.
Definition nan (x : float) : Prop := Prim2SF x = S754_nan.

(** The outcome of rounding a positive, respectively negative, value. *)
Definition positive_result (x : spec_float) : Prop :=
  match x with
  | S754_finite false _ _ | S754_infinity false => True
  | _ => False
  end.

Definition negative_result (x : spec_float) : Prop :=
  match x with
  | S754_finite false _ _ | S754_infinity false | S754_zero false => False
  | _ => True
  end.

(** The mantissa of a finite value at the exponent [ez], signed. *)
Definition aligned (s : bool) (m : positive) (e ez : Z) : Z :=
  cond_Zopp s (Zpos (fst (shl_align m e ez))).

End SF.

(** * Properties *)

(** ** Facts about the two number instances *)

Lemma Q_gt_iff (a b : Q) : ngt a b = true <-> (b < a)%Q.
Proof.
  cbn. unfold Exact.gt. rewrite negb_true_iff.
  split.
  - intros E. apply Qnot_le_lt. intros L. apply Qle_bool_iff in L. congruence.
  - intros L. destruct (Qle_bool a b) eqn:E; [|reflexivity].
    apply Qle_bool_iff in E. exfalso. apply (Qlt_not_le _ _ L E).
Qed.

Lemma Q_gt_false_iff (a b : Q) : ngt a b = false <-> (a <= b)%Q.
Proof.
  cbn. unfold Exact.gt. rewrite negb_false_iff. apply Qle_bool_iff.
Qed.

Lemma Q_dec0 (m : Z) : dec (num:=Q) m 0 = inject_Z m.
Proof. reflexivity. Qed.

Lemma Q_ceil_ge (x : Q) : (x <= Math_ceil x)%Q.
Proof. cbn. unfold Exact.ceil. apply Qle_ceiling. Qed.

Lemma Q_ceil_lt (x : Q) : (Math_ceil x < x + 1)%Q.
Proof.
  cbn. unfold Exact.ceil.
  pose proof (Qceiling_lt x) as L.
  replace (Qceiling x - 1)%Z with (Qceiling x + (-1))%Z in L by lia.
  rewrite inject_Z_plus in L. change (inject_Z (-1)) with (-1)%Q in L. lra.
Qed.

Lemma Q_max_ge_l (a b : Q) : (a <= Math_max a b)%Q.
Proof.
  cbn. unfold Exact.max. destruct (Qle_bool a b) eqn:E.
  - now apply Qle_bool_iff.
  - apply Qle_refl.
Qed.

Lemma Q_div_pos (a b : Q) : (0 < a -> 0 < b -> 0 < a / b)%Q.
Proof. intros Ha Hb. apply Qlt_shift_div_l; [assumption | lra]. Qed.

(** [Math.ceil] and the decimal literals of the binary64 instance on
    sample values. *)
Example Math_ceil_binary64 :
  (F64.ceil 0.5 = 1 /\ F64.ceil (-0.5) = -0 /\ F64.ceil 1 = 1
   /\ F64.ceil 1.5 = 2 /\ F64.ceil (-1.5) = -1 /\ F64.ceil 2.1 = 3
   /\ F64.ceil 147 = 147 /\ F64.ceil 147.00000000000003 = 148
   /\ F64.ceil 4503599627370495.5 = 4503599627370496
   /\ F64.ceil 1e300 = 1e300 /\ F64.ceil 5e-324 = 1 /\ F64.ceil (-5e-324) = -0
   /\ F64.ceil 0 = 0 /\ F64.ceil (-0) = -0
   /\ F64.ceil infinity = infinity /\ F64.ceil neg_infinity = neg_infinity
   /\ PrimFloat.is_nan (F64.ceil nan) = true)%float.
Proof. vm_compute. repeat split; reflexivity. Qed.

Example decimal_literals_binary64 :
  (F64.dec 7 2 = 0.07 /\ F64.dec 175 4 = 0.0175 /\ F64.dec 2 2 = 0.02
   /\ F64.dec 5 1 = 0.5 /\ F64.dec 85 2 = 0.85 /\ F64.dec 6 1 = 0.6
   /\ F64.dec 25 2 = 0.25 /\ F64.dec 15 2 = 0.15 /\ F64.dec 7 1 = 0.7
   /\ F64.dec 4 1 = 0.4 /\ F64.dec 100 0 = 100 /\ F64.dec 1 0 = 1
   /\ F64.dec 0 0 = 0)%float.
Proof. vm_compute. repeat split; reflexivity. Qed.

(** ** The order of binary64

    Subtraction keeps the sign of the exact difference: rounding a
    non-zero difference of two doubles never gives a zero, because the
    difference is a multiple of the smallest subnormal. *)

Section Binary64Order.
Local Open Scope Z_scope.

Lemma digits2_pos_bounds p :
  2 ^ (Zpos (digits2_pos p) - 1) <= Zpos p < 2 ^ Zpos (digits2_pos p).
Proof.
  induction p as [p IH|p IH|]; cbn [digits2_pos].
  - rewrite Pos2Z.inj_succ.
    replace (Z.succ (Zpos (digits2_pos p)) - 1)
      with (Zpos (digits2_pos p) - 1 + 1) by lia.
    rewrite Z.pow_succ_r by lia. rewrite Z.pow_add_r by lia.
    change (2 ^ 1) with 2. lia.
  - rewrite Pos2Z.inj_succ.
    replace (Z.succ (Zpos (digits2_pos p)) - 1)
      with (Zpos (digits2_pos p) - 1 + 1) by lia.
    rewrite Z.pow_succ_r by lia. rewrite Z.pow_add_r by lia.
    change (2 ^ 1) with 2. lia.
  - cbn. lia.
Qed.

Lemma shr_1_m r : 0 <= shr_m r -> shr_m (shr_1 r) = shr_m r / 2.
Proof.
  destruct r as [m r s]. cbn [shr_m]. intros Hm.
  destruct m as [|p|p]; [reflexivity| |lia].
  destruct p as [p|p|]; cbn [shr_1 shr_m].
  - rewrite Pos2Z.inj_xI. apply Z.div_unique with (r := 1); lia.
  - rewrite Pos2Z.inj_xO. apply Z.div_unique with (r := 0); lia.
  - reflexivity.
Qed.

Lemma iter_shr_m n : forall r,
  0 <= shr_m r -> shr_m (SpecFloat.iter_pos shr_1 n r) = shr_m r / 2 ^ Zpos n.
Proof.
  induction n as [n IH|n IH|]; intros r Hr; cbn [SpecFloat.iter_pos].
  - assert (H1 : 0 <= shr_m (shr_1 r)) by (rewrite shr_1_m by lia; apply Z.div_pos; lia).
    assert (H2 : 0 <= shr_m (SpecFloat.iter_pos shr_1 n (shr_1 r)))
      by (rewrite IH by lia; apply Z.div_pos; [lia | apply Z.pow_pos_nonneg; lia]).
    rewrite IH, IH, shr_1_m by lia.
    rewrite !Z.div_div by (try apply Z.pow_pos_nonneg; lia).
    f_equal. replace (Zpos n~1) with (1 + Zpos n + Zpos n) by lia.
    rewrite !Z.pow_add_r by lia. change (2 ^ 1) with 2. lia.
  - assert (H2 : 0 <= shr_m (SpecFloat.iter_pos shr_1 n r))
      by (rewrite IH by lia; apply Z.div_pos; [lia | apply Z.pow_pos_nonneg; lia]).
    rewrite IH, IH by lia.
    rewrite !Z.div_div by (try apply Z.pow_pos_nonneg; lia).
    f_equal. replace (Zpos n~0) with (Zpos n + Zpos n) by lia.
    rewrite !Z.pow_add_r by lia. lia.
  - rewrite shr_1_m by lia. reflexivity.
Qed.

Lemma shr_record_of_loc_m m l : shr_m (shr_record_of_loc m l) = m.
Proof. destruct l as [|[| |]]; reflexivity. Qed.

Lemma shr_fexp_pos m e l :
  0 < m -> -1074 <= e ->
  0 < shr_m (fst (shr_fexp prec emax m e l))
  /\ -1074 <= snd (shr_fexp prec emax m e l).
Proof.
  intros Hm He. unfold shr_fexp, shr.
  destruct m as [|p|p]; try lia. cbn [Zdigits2].
  pose proof (digits2_pos_bounds p) as [Hlo _].
  set (d := Zpos (digits2_pos p)) in *.
  assert (Hf : fexp prec emax (d + e) = Z.max (d + e - 53) (-1074)) by reflexivity.
  rewrite Hf.
  destruct (Z.max (d + e - 53) (-1074) - e) as [|n|n] eqn:En; cbn [fst snd].
  - rewrite shr_record_of_loc_m. lia.
  - rewrite iter_shr_m by (rewrite shr_record_of_loc_m; lia).
    rewrite shr_record_of_loc_m. split; [|lia].
    apply Z.div_str_pos. split; [apply Z.pow_pos_nonneg; lia|].
    apply Z.le_trans with (2 ^ (d - 1)); [|exact Hlo].
    apply Z.pow_le_mono_r; lia.
  - rewrite shr_record_of_loc_m. lia.
Qed.

Lemma binary_round_aux_pos m e l :
  0 < m -> -1074 <= e -> SF.positive_result (binary_round_aux prec emax false m e l).
Proof.
  intros Hm He. unfold binary_round_aux.
  pose proof (shr_fexp_pos m e l Hm He) as [H1 H1'].
  destruct (shr_fexp prec emax m e l) as [mrs' e']. cbn [fst snd] in *.
  set (m' := round_nearest_even (shr_m mrs') (loc_of_shr_record mrs')).
  assert (Hm' : 0 < m').
  { unfold m', round_nearest_even.
    destruct (loc_of_shr_record mrs') as [|[| |]]; try lia.
    destruct (Z.even (shr_m mrs')); lia. }
  pose proof (shr_fexp_pos m' e' loc_Exact Hm' H1') as [H2 H2'].
  destruct (shr_fexp prec emax m' e' loc_Exact) as [mrs'' e'']. cbn [fst snd] in *.
  destruct (shr_m mrs'') as [|q|q]; try lia.
  destruct (e'' <=? emax - prec); exact I.
Qed.

Lemma binary_round_aux_neg m e l :
  SF.negative_result (binary_round_aux prec emax true m e l).
Proof.
  unfold binary_round_aux.
  destruct (shr_fexp prec emax m e l) as [mrs' e'].
  destruct (shr_fexp prec emax _ e' loc_Exact) as [mrs'' e''].
  destruct (shr_m mrs'') as [|q|q]; try exact I.
  destruct (e'' <=? emax - prec); exact I.
Qed.

Lemma shl_align_fst m e ez :
  ez <= e -> Zpos (fst (shl_align m e ez)) = Zpos m * 2 ^ (e - ez).
Proof.
  intros H. unfold shl_align.
  destruct (ez - e) as [|n|n] eqn:En; try lia.
  - replace (e - ez) with 0 by lia. cbn. lia.
  - cbn [fst]. replace (e - ez) with (Zpos n) by lia.
    clear. induction n as [|n IH] using Pos.peano_ind.
    + cbn. lia.
    + rewrite Pos.iter_succ, Pos2Z.inj_xO, IH, Pos2Z.inj_succ, Z.pow_succ_r by lia.
      lia.
Qed.

Lemma shl_align_snd m e ez : -1074 <= e -> -1074 <= ez -> -1074 <= snd (shl_align m e ez).
Proof.
  intros. unfold shl_align. destruct (ez - e); cbn [snd]; lia.
Qed.

Lemma binary_normalize_sign z e :
  -1074 <= e ->
  SFltb (S754_zero false) (binary_normalize prec emax z e false) = (0 <? z).
Proof.
  intros He. destruct z as [|p|p]; cbn [binary_normalize].
  - reflexivity.
  - unfold binary_round.
    pose proof (shl_align_snd p e
                  (fexp prec emax (Zpos (digits2_pos p) + e)) He) as Hs.
    destruct (shl_align p e _) as [mz ez]. cbn [snd] in Hs.
    assert (Hf : -1074 <= fexp prec emax (Zpos (digits2_pos p) + e)).
    { change (fexp prec emax (Zpos (digits2_pos p) + e))
        with (Z.max (Zpos (digits2_pos p) + e - 53) (-1074)).
      lia. }
    pose proof (binary_round_aux_pos (Zpos mz) ez loc_Exact
                  ltac:(lia) (Hs Hf)) as P.
    destruct (binary_round_aux prec emax false (Zpos mz) ez loc_Exact)
      as [[|]|[|]| |[|] ? ?];
      cbn in P; try contradiction; reflexivity.
  - unfold binary_round.
    destruct (shl_align p e _) as [mz ez].
    pose proof (binary_round_aux_neg (Zpos mz) ez loc_Exact) as P.
    destruct (binary_round_aux prec emax true (Zpos mz) ez loc_Exact)
      as [[|]|[|]| |[|] ? ?];
      cbn in P; try contradiction; reflexivity.
Qed.

Lemma canonical_facts m e :
  bounded prec emax m e = true ->
  -1074 <= e /\ Zpos (digits2_pos m) <= 53
  /\ (-1074 < e -> Zpos (digits2_pos m) = 53).
Proof.
  unfold bounded, canonical_mantissa. intros H.
  apply andb_true_iff in H as [H _]. apply Z.eqb_eq in H.
  change (fexp prec emax (Zpos (digits2_pos m) + e))
    with (Z.max (Zpos (digits2_pos m) + e - 53) (-1074)) in H.
  lia.
Qed.

Lemma magnitude_compare ma ea mb eb :
  bounded prec emax ma ea = true -> bounded prec emax mb eb = true ->
  match ea ?= eb with
  | Lt => Lt
  | Gt => Gt
  | Eq => Pos.compare_cont Eq ma mb
  end
  = (Zpos ma * 2 ^ (ea - Z.min ea eb) ?= Zpos mb * 2 ^ (eb - Z.min ea eb)).
Proof.
  intros Ha Hb.
  apply canonical_facts in Ha as (Ha1 & Ha2 & Ha3).
  apply canonical_facts in Hb as (Hb1 & Hb2 & Hb3).
  pose proof (digits2_pos_bounds ma) as [La Ua].
  pose proof (digits2_pos_bounds mb) as [Lb Ub].
  assert (P53 : forall d, d <= 53 -> 2 ^ d <= 2 ^ 53)
    by (intros; apply Z.pow_le_mono_r; lia).
  destruct (Z.compare_spec ea eb) as [E|E|E].
  - subst eb. rewrite Z.min_id, Z.sub_diag. cbn [Z.pow]. rewrite !Z.mul_1_r.
    reflexivity.
  - rewrite Z.min_l by lia. rewrite Z.sub_diag. cbn [Z.pow]. rewrite Z.mul_1_r.
    symmetry. apply Z.compare_lt_iff.
    rewrite (Hb3 ltac:(lia)) in Lb. change (2 ^ (53 - 1)) with (2 ^ 52) in Lb.
    assert (2 <= 2 ^ (eb - ea)).
    { change 2 with (2 ^ 1) at 1. apply Z.pow_le_mono_r; lia. }
    specialize (P53 _ Ha2). change (2 ^ 53) with (2 * 2 ^ 52) in P53. nia.
  - rewrite Z.min_r by lia. rewrite Z.sub_diag. cbn [Z.pow]. rewrite Z.mul_1_r.
    symmetry. apply Z.compare_gt_iff.
    rewrite (Ha3 ltac:(lia)) in La. change (2 ^ (53 - 1)) with (2 ^ 52) in La.
    assert (2 <= 2 ^ (ea - eb)).
    { change 2 with (2 ^ 1) at 1. apply Z.pow_le_mono_r; lia. }
    specialize (P53 _ Hb2). change (2 ^ 53) with (2 * 2 ^ 52) in P53. nia.
Qed.

Lemma SFcompare_finite sa ma ea sb mb eb :
  bounded prec emax ma ea = true -> bounded prec emax mb eb = true ->
  SFcompare (S754_finite sa ma ea) (S754_finite sb mb eb)
  = Some (SF.aligned sa ma ea (Z.min ea eb) ?= SF.aligned sb mb eb (Z.min ea eb)).
Proof.
  intros Ha Hb. pose proof (magnitude_compare ma ea mb eb Ha Hb) as M.
  unfold SF.aligned. rewrite !shl_align_fst by lia.
  assert (0 < Zpos ma * 2 ^ (ea - Z.min ea eb))
    by (apply Z.mul_pos_pos; [lia | apply Z.pow_pos_nonneg; lia]).
  assert (0 < Zpos mb * 2 ^ (eb - Z.min ea eb))
    by (apply Z.mul_pos_pos; [lia | apply Z.pow_pos_nonneg; lia]).
  cbn [SFcompare]. f_equal.
  destruct sa, sb; cbn [cond_Zopp].
  - rewrite Z.compare_opp.
    rewrite (Z.compare_antisym (Zpos ma * 2 ^ (ea - Z.min ea eb))), <- M.
    destruct (ea ?= eb); reflexivity.
  - symmetry. apply Z.compare_lt_iff. lia.
  - symmetry. apply Z.compare_gt_iff. lia.
  - exact M.
Qed.

Lemma SFsub_finite_sign sa ma ea sb mb eb :
  bounded prec emax ma ea = true -> bounded prec emax mb eb = true ->
  SFltb (S754_zero false)
    (SFsub prec emax (S754_finite sb mb eb) (S754_finite sa ma ea))
  = SFltb (S754_finite sa ma ea) (S754_finite sb mb eb).
Proof.
  intros Ha Hb. unfold SFltb at 2. rewrite SFcompare_finite by assumption.
  cbn [SFsub].
  pose proof (canonical_facts _ _ Ha) as (Ha1 & _).
  pose proof (canonical_facts _ _ Hb) as (Hb1 & _).
  rewrite binary_normalize_sign by lia.
  rewrite (Z.min_comm eb ea). fold (SF.aligned sb mb eb (Z.min ea eb)).
  fold (SF.aligned sa ma ea (Z.min ea eb)).
  set (za := SF.aligned sa ma ea _). set (zb := SF.aligned sb mb eb _).
  destruct (Z.compare_spec za zb); destruct (Z.ltb_spec 0 (zb - za)); lia || reflexivity.
Qed.

Lemma sub_pos_iff (a b : float) : (0 <? b - a)%float = (a <? b)%float.
Proof.
  rewrite !ltb_spec, sub_spec.
  change (Prim2SF 0) with (S754_zero false).
  pose proof (Prim2SF_valid a) as Va. pose proof (Prim2SF_valid b) as Vb.
  destruct (Prim2SF a) as [sa|sa| |sa ma ea], (Prim2SF b) as [sb|sb| |sb mb eb];
    try reflexivity;
    try (destruct sa; reflexivity);
    try (destruct sb; reflexivity);
    try (destruct sa, sb; reflexivity).
  apply SFsub_finite_sign; assumption.
Qed.

Lemma ltb_irrefl (a : float) : (a <? a)%float = false.
Proof.
  rewrite <- (sub_pos_iff a a), ltb_spec, sub_spec.
  change (Prim2SF 0) with (S754_zero false).
  pose proof (Prim2SF_valid a) as Va.
  destruct (Prim2SF a) as [sa|sa| |sa ma ea]; try (destruct sa; reflexivity);
    try reflexivity.
  rewrite SFsub_finite_sign by assumption.
  unfold SFltb. rewrite SFcompare_finite by assumption.
  rewrite Z.compare_refl. reflexivity.
Qed.

Lemma ltb_asym (a b : float) : (a <? b)%float = true -> (b <? a)%float = false.
Proof.
  rewrite !ltb_spec.
  pose proof (Prim2SF_valid a) as Va. pose proof (Prim2SF_valid b) as Vb.
  destruct (Prim2SF a) as [sa|sa| |sa ma ea], (Prim2SF b) as [sb|sb| |sb mb eb];
    try discriminate; try reflexivity;
    try (destruct sa; (discriminate || reflexivity));
    try (destruct sb; (discriminate || reflexivity));
    try (destruct sa, sb; (discriminate || reflexivity)).
  unfold SFltb. rewrite !SFcompare_finite by assumption.
  rewrite (Z.min_comm eb ea).
  rewrite (Z.compare_antisym (SF.aligned sa ma ea (Z.min ea eb))).
  destruct (_ ?= _); (discriminate || reflexivity).
Qed.

Lemma ltb_pos_trans (a b : float) :
  (0 <? a)%float = true -> (a <? b)%float = true -> (0 <? b)%float = true.
Proof.
  rewrite !ltb_spec. change (Prim2SF 0) with (S754_zero false).
  destruct (Prim2SF a) as [sa|sa| |sa ma ea], (Prim2SF b) as [sb|sb| |sb mb eb];
    try discriminate; try reflexivity;
    try (destruct sa; (discriminate || reflexivity));
    try (destruct sb; (discriminate || reflexivity));
    try (destruct sa, sb; (discriminate || reflexivity)).
Qed.

End Binary64Order.

(** ** [fees.js] *)

(** C4, on the code.  On every number instance the Kalshi taker fee is the
    expression [ceil(0.07 * contracts * price * (1 - price) * 100) / 100].
    In exact arithmetic it is a whole number of cents, at least the raw fee
    and less than a cent above it, and the fee of 100 contracts at 0.3 is
    1.47; binary64 gives 1.47 there as well.  But binary64 rounds the
    product before [Math.ceil] sees it: [0.07 * 100] is
    [7.000000000000001], and at 100 contracts the fee at 0.5 comes out as
    1.76 where the formula gives 1.75, and at 0.7 as 1.48 where it gives
    1.47. *)
Theorem kalshi_taker_fee_binary64_extra_cent :
  (forall (num : Type) (N : Number num) (contracts price : num),
      calculateKalshiTakerFee CONFIG contracts price
      = (Math_ceil (dec 7 2 * contracts * price * (dec 1 0 - price)
                    * dec 100 0) / dec 100 0)%num)
  /\ (forall contracts price : Q,
        let raw := ((7 # 100) * contracts * price * (1 - price))%Q in
        let fee := calculateKalshiTakerFee CONFIG contracts price in
        (fee * 100 == inject_Z (Qceiling (raw * 100))
         /\ raw <= fee /\ fee < raw + (1 # 100))%Q)
  /\ ((calculateKalshiTakerFee CONFIG 100 (3 # 10) == 147 # 100)%Q
      /\ calculateKalshiTakerFee CONFIG 100%float 0.3%float = 1.47%float)
  /\ ((calculateKalshiTakerFee CONFIG 100 (1 # 2) == 175 # 100)%Q
      /\ (0.07 * 100 * 0.5 * (1 - 0.5) * 100)%float
         = 175.00000000000003%float
      /\ calculateKalshiTakerFee CONFIG 100%float 0.5%float = 1.76%float)
  /\ ((calculateKalshiTakerFee CONFIG 100 (7 # 10) == 147 # 100)%Q
      /\ calculateKalshiTakerFee CONFIG 100%float 0.7%float = 1.48%float).
Proof.
  split; [reflexivity|].
  split; [|repeat split; reflexivity].
  intros contracts price raw fee.
  assert (E : (fee == inject_Z (Qceiling (raw * 100)) / 100)%Q) by reflexivity.
  pose proof (Q_ceil_ge (raw * 100)) as Hge.
  pose proof (Q_ceil_lt (raw * 100)) as Hlt.
  cbn in Hge, Hlt. unfold Exact.ceil in Hge, Hlt.
  revert E Hge Hlt. generalize (inject_Z (Qceiling (raw * 100))).
  intros c E Hge Hlt.
  assert (E' : (fee * 100 == c)%Q) by (rewrite E; field).
  split; [exact E'|]. split; lra.
Qed.

(** ** [arbitrage.js]: the solver *)

Section ArbitrageFacts.
Context {num : Type} `{Number num}.
Variable cfg : Config num.
Local Open Scope num_scope.

Lemma checkArbitrageOpportunity_evaluate p1 s1 pr1 p2 s2 pr2 inv :
  checkArbitrageOpportunity cfg p1 s1 pr1 p2 s2 pr2 inv =
  let o := evaluate cfg p1 s1 pr1 p2 s2 pr2 inv in
  if netProfit (profit o) >? dec 0 0 then Some o else None.
Proof.
  unfold checkArbitrageOpportunity, evaluate, finalContracts, platformCost.
  cbv zeta.
  destruct (_ >? inv); reflexivity.
Qed.

(** C2.  With [contracts0 = investment / (price1 + price2)] and [total0]
    the total cost at [contracts0]: the contract count is
    [contracts0 * (investment / total0)] when [total0 > investment] and
    [contracts0] otherwise; both side costs are those at that count, and
    the profit test and the returned record use them; nothing depends on
    whether the cost at the rescaled count fits the investment. *)
Theorem checkArbitrageOpportunity_rescales_once
    p1 s1 pr1 p2 s2 pr2 investment :
  let contracts0 := investment / (pr1 + pr2) in
  let total0 := totalCost (platformCost cfg p1 contracts0 pr1)
                + totalCost (platformCost cfg p2 contracts0 pr2) in
  let contracts :=
    if total0 >? investment then contracts0 * (investment / total0)
    else contracts0 in
  let c1 := platformCost cfg p1 contracts pr1 in
  let c2 := platformCost cfg p2 contracts pr2 in
  checkArbitrageOpportunity cfg p1 s1 pr1 p2 s2 pr2 investment =
  if netProfit (calculateArbitrageProfit c1 c2) >? dec 0 0 then
    Some {| platform1 := p1; side1 := s1; price1 := pr1;
            contracts1 := contracts; cost1 := c1;
            platform2 := p2; side2 := s2; price2 := pr2;
            contracts2 := contracts; cost2 := c2;
            profit := calculateArbitrageProfit c1 c2 |}
  else None.
Proof.
  intros. rewrite checkArbitrageOpportunity_evaluate. reflexivity.
Qed.

End ArbitrageFacts.

(** The end-to-end example of the specification on the mock data, in
    binary64: Kalshi no at 0.21 against Polymarket yes at 0.75 with 100
    invested.  The naive count 104.17 costs 101.73, the one rescale gives
    102.39 contracts, and the record is returned although its total cost,
    100.0006, is still above the investment: the rescale is not repeated. *)
Example calculateArbitrage_mock_warming :
  let contracts0 := (100 / ((1 - 0.79) + 0.75))%float in
  let total0 :=
    (totalCost (platformCost CONFIG "kalshi" contracts0 (1 - 0.79))
     + totalCost (platformCost CONFIG "polymarket" contracts0 0.75))%float in
  (contracts0 = 104.16666666666667
   /\ total0 = 101.73083333333332
   /\ (100 <? total0) = true
   /\ (100 <? 100.0005867608149) = true)%float
  /\ option_map
       (fun o => (side1 o, side2 o, contracts1 o, p_totalCost (profit o),
                  guaranteedPayout (profit o), netProfit (profit o)))
       (k ← MOCK_kalshi !! 0%nat; p ← MOCK_polymarket !! 3%nat;
        calculateArbitrage CONFIG k p 100%float)
     = Some ("no", "yes", 102.39439042571493%float, 100.0005867608149%float,
             102.39439042571493%float, 2.3938036649000338%float).
Proof. vm_compute. repeat split; reflexivity. Qed.

Section ExactArbitrage.
Variable cfg : Config Q.
Local Open Scope Q_scope.

Lemma calculateArbitrage_best_exact
    (kalshiMarket polyMarket : Market Q) (investment : Q) :
  let o1 := evaluate cfg "kalshi" "yes" (yesPrice kalshiMarket)
              "polymarket" "no" (1 - yesPrice polyMarket) investment in
  let o2 := evaluate cfg "kalshi" "no" (1 - yesPrice kalshiMarket)
              "polymarket" "yes" (yesPrice polyMarket) investment in
  match calculateArbitrage cfg kalshiMarket polyMarket investment with
  | None => netProfit (profit o1) <= 0 /\ netProfit (profit o2) <= 0
  | Some r =>
      (r = o1 \/ r = o2)
      /\ 0 < netProfit (profit r)
      /\ netProfit (profit o1) <= netProfit (profit r)
      /\ netProfit (profit o2) <= netProfit (profit r)
  end.
Proof.
  intros o1 o2. unfold calculateArbitrage.
  rewrite !checkArbitrageOpportunity_evaluate. cbv zeta.
  change (evaluate cfg "kalshi" "yes" _ _ _ _ _) with o1.
  change (evaluate cfg "kalshi" "no" _ _ _ _ _) with o2.
  clearbody o1 o2.
  destruct (ngt (netProfit (profit o1)) _) eqn:E1;
    destruct (ngt (netProfit (profit o2)) _) eqn:E2;
    unfold Array_sort; simpl.
  - destruct (Exact.gt _ _) eqn:E3; simpl;
      apply Q_gt_iff in E1, E2;
      [apply Q_gt_iff in E3 | apply Q_gt_false_iff in E3];
      rewrite Q_dec0 in *; change (inject_Z 0) with 0 in *;
      (split; [auto|]); (split; [assumption|]); split; lra.
  - apply Q_gt_iff in E1. apply Q_gt_false_iff in E2.
    rewrite Q_dec0 in *. change (inject_Z 0) with 0 in *.
    (split; [auto|]); (split; [assumption|]); split; lra.
  - apply Q_gt_false_iff in E1. apply Q_gt_iff in E2.
    rewrite Q_dec0 in *. change (inject_Z 0) with 0 in *.
    (split; [auto|]); (split; [assumption|]); split; lra.
  - apply Q_gt_false_iff in E1. apply Q_gt_false_iff in E2.
    rewrite Q_dec0 in *. change (inject_Z 0) with 0 in *.
    split; assumption.
Qed.

End ExactArbitrage.

Section Binary64Arbitrage.
Variable cfg : Config float.
Local Open Scope float_scope.

Lemma calculateArbitrage_best_binary64
    (kalshiMarket polyMarket : Market float) (investment : float) :
  let o1 := evaluate cfg "kalshi" "yes" (yesPrice kalshiMarket)
              "polymarket" "no" (1 - yesPrice polyMarket) investment in
  let o2 := evaluate cfg "kalshi" "no" (1 - yesPrice kalshiMarket)
              "polymarket" "yes" (yesPrice polyMarket) investment in
  match calculateArbitrage cfg kalshiMarket polyMarket investment with
  | None =>
      (0 <? netProfit (profit o1)) = false
      /\ (0 <? netProfit (profit o2)) = false
  | Some r =>
      (r = o1 \/ r = o2)
      /\ (0 <? netProfit (profit r)) = true
      /\ (netProfit (profit r) <? netProfit (profit o1)) = false
      /\ (netProfit (profit r) <? netProfit (profit o2)) = false
  end.
Proof.
  intros o1 o2. unfold calculateArbitrage.
  rewrite !checkArbitrageOpportunity_evaluate. cbv zeta.
  change (evaluate cfg "kalshi" "yes" _ _ _ _ _) with o1.
  change (evaluate cfg "kalshi" "no" _ _ _ _ _) with o2.
  clearbody o1 o2.
  change (dec 0 0) with 0.
  change (ngt (netProfit (profit o1)) 0) with (0 <? netProfit (profit o1)).
  change (ngt (netProfit (profit o2)) 0) with (0 <? netProfit (profit o2)).
  destruct (0 <? netProfit (profit o1)) eqn:E1;
    destruct (0 <? netProfit (profit o2)) eqn:E2;
    unfold Array_sort;
    cbn [option_list option_rect app fold_left sort_insert rev head].
  - change (ngt (nsub (netProfit (profit o2)) (netProfit (profit o1)))
              (dec 0 0))
      with (0 <? netProfit (profit o2) - netProfit (profit o1)).
    rewrite sub_pos_iff.
    destruct (netProfit (profit o1) <? netProfit (profit o2)) eqn:E3;
      cbn [rev app head].
    + split; [auto|]. split; [assumption|].
      split; [apply ltb_asym; assumption | apply ltb_irrefl].
    + split; [auto|]. split; [assumption|].
      split; [apply ltb_irrefl | assumption].
  - split; [auto|]. split; [assumption|]. split; [apply ltb_irrefl|].
    destruct (netProfit (profit o1) <? netProfit (profit o2)) eqn:E3;
      [|reflexivity].
    rewrite (ltb_pos_trans _ _ E1 E3) in E2. discriminate.
  - split; [auto|]. split; [assumption|]. split; [|apply ltb_irrefl].
    destruct (netProfit (profit o2) <? netProfit (profit o1)) eqn:E3;
      [|reflexivity].
    rewrite (ltb_pos_trans _ _ E2 E3) in E1. discriminate.
  - split; reflexivity.
Qed.

End Binary64Arbitrage.

(** C1.  [calculateArbitrage] evaluates the two combinations, yes on
    Kalshi with no on Polymarket and the mirror.  It returns [null]
    exactly when neither has [netProfit > 0]; otherwise it returns one of
    the two, with [netProfit > 0] and a [netProfit] that is not below that
    of the other.  This holds in exact arithmetic and in binary64, where
    "not below" also covers a [NaN] profit of the combination left out. *)
Theorem calculateArbitrage_returns_the_better_combination :
  (forall (cfg : Config Q) (kalshiMarket polyMarket : Market Q)
          (investment : Q),
      let o1 := evaluate cfg "kalshi" "yes" (yesPrice kalshiMarket)
                  "polymarket" "no" (1 - yesPrice polyMarket) investment in
      let o2 := evaluate cfg "kalshi" "no" (1 - yesPrice kalshiMarket)
                  "polymarket" "yes" (yesPrice polyMarket) investment in
      match calculateArbitrage cfg kalshiMarket polyMarket investment with
      | None => netProfit (profit o1) <= 0 /\ netProfit (profit o2) <= 0
      | Some r =>
          (r = o1 \/ r = o2)
          /\ 0 < netProfit (profit r)
          /\ netProfit (profit o1) <= netProfit (profit r)
          /\ netProfit (profit o2) <= netProfit (profit r)
      end)%Q
  /\ (forall (cfg : Config float) (kalshiMarket polyMarket : Market float)
             (investment : float),
      let o1 := evaluate cfg "kalshi" "yes" (yesPrice kalshiMarket)
                  "polymarket" "no" (1 - yesPrice polyMarket) investment in
      let o2 := evaluate cfg "kalshi" "no" (1 - yesPrice kalshiMarket)
                  "polymarket" "yes" (yesPrice polyMarket) investment in
      match calculateArbitrage cfg kalshiMarket polyMarket investment with
      | None =>
          (0 <? netProfit (profit o1)) = false
          /\ (0 <? netProfit (profit o2)) = false
      | Some r =>
          (r = o1 \/ r = o2)
          /\ (0 <? netProfit (profit r)) = true
          /\ (netProfit (profit r) <? netProfit (profit o1)) = false
          /\ (netProfit (profit r) <? netProfit (profit o2)) = false
      end)%float.
Proof.
  split.
  - exact calculateArbitrage_best_exact.
  - exact calculateArbitrage_best_binary64.
Qed.

Section NoOpportunity.
Variable cfg : Config Q.
Hypothesis taker_nonneg : (0 <= takerFeeRate cfg)%Q.
Local Open Scope Q_scope.

Lemma kalshi_taker_fee_nonneg (contracts price : Q) :
  0 <= contracts -> 0 <= price <= 1 ->
  0 <= calculateKalshiTakerFee cfg contracts price.
Proof using taker_nonneg.
  intros Hc [Hp0 Hp1].
  unfold calculateKalshiTakerFee. cbv zeta.
  set (raw := (takerFeeRate cfg * contracts * price * (dec 1 0 - price))%num).
  assert (Hraw : 0 <= raw).
  { unfold raw. cbn [nmul nsub Q_Number]. rewrite Q_dec0.
    change (inject_Z 1) with 1.
    repeat apply Qmult_le_0_compat; try assumption. lra. }
  pose proof (Q_ceil_ge (raw * dec 100 0)%num) as Hge.
  revert Hge. generalize (Math_ceil (raw * dec 100 0)%num). intros c Hge.
  cbn [nmul ndiv Q_Number] in *. rewrite Q_dec0 in *.
  change (inject_Z 100) with 100 in *.
  apply Qle_shift_div_l; lra.
Qed.

Lemma polymarket_fee_nonneg (contracts price : Q) :
  0 <= calculatePolymarketFee cfg contracts price.
Proof.
  unfold calculatePolymarketFee. cbv zeta.
  pose proof (Q_max_ge_l (dec 0 0)) as L. rewrite Q_dec0 in L. apply L.
Qed.

Lemma platformCost_covers_contracts (platform : string) (contracts price : Q) :
  0 <= contracts -> 0 <= price <= 1 ->
  contracts * price <= totalCost (platformCost cfg platform contracts price).
Proof using taker_nonneg.
  intros Hc Hp. unfold platformCost.
  destruct (String.eqb platform "kalshi").
  - pose proof (kalshi_taker_fee_nonneg contracts price Hc Hp).
    cbn -[calculateKalshiTakerFee]. lra.
  - pose proof (polymarket_fee_nonneg contracts price).
    cbn -[calculatePolymarketFee]. lra.
Qed.

Lemma evaluate_not_profitable p1 s1 pr1 p2 s2 pr2 investment :
  0 <= pr1 <= 1 -> 0 <= pr2 <= 1 -> 1 <= pr1 + pr2 -> 0 < investment ->
  netProfit (profit (evaluate cfg p1 s1 pr1 p2 s2 pr2 investment)) <= 0.
Proof using taker_nonneg.
  intros H1 H2 Hsum Hinv.
  unfold evaluate. cbv zeta.
  set (contracts := finalContracts cfg p1 pr1 p2 pr2 investment).
  assert (Hc : 0 <= contracts).
  { unfold contracts, finalContracts. cbv zeta.
    assert (Hc0 : 0 < investment / (pr1 + pr2)) by (apply Q_div_pos; lra).
    destruct (ngt _ investment) eqn:E.
    - apply Q_gt_iff in E. cbn [nmul ndiv nadd Q_Number] in *.
      apply Qlt_le_weak. apply Qmult_lt_0_compat; [assumption|].
      apply Q_div_pos; lra.
    - apply Qlt_le_weak. exact Hc0. }
  pose proof (platformCost_covers_contracts p1 contracts pr1 Hc H1) as L1.
  pose proof (platformCost_covers_contracts p2 contracts pr2 Hc H2) as L2.
  cbn [profit calculateArbitrageProfit netProfit maxPayout].
  assert (M : maxPayout (platformCost cfg p1 contracts pr1) = contracts).
  { unfold platformCost. destruct (String.eqb p1 "kalshi"); reflexivity. }
  unfold calculateArbitrageProfit. cbn [netProfit]. rewrite M.
  cbn [nsub nadd Q_Number].
  assert (0 <= contracts * (pr1 + pr2 - 1))
    by (apply Qmult_le_0_compat; lra).
  lra.
Qed.

End NoOpportunity.




(** Rounding leaves the exact statement at the bottom of the binary64
    range only: with the smallest positive double invested at prices 0.5
    and 0.5, both products and both fees underflow to zero and the whole
    investment is counted as profit. *)
Example checkArbitrageOpportunity_underflow :
  option_map (fun o => (contracts1 o, p_totalCost (profit o),
                        netProfit (profit o)))
    (checkArbitrageOpportunity CONFIG "kalshi" "yes" 0.5%float
       "polymarket" "no" 0.5%float 5e-324%float)
  = Some (5e-324, 0, 5e-324)%float.
Proof. vm_compute. reflexivity. Qed.

(** C9.  A market whose [yes_price] is zero and whose [price] is absent or
    falsy is read as a market at 0.5: its yes price is taken as 0.5, its no
    price as 0.5, and [calculateArbitrage] returns what it returns for the
    same market with [yes_price] 0.5, on either side of the pair. *)
Theorem zero_yes_price_is_read_as_one_half
    (cfg : Config float) (m other : Market float) (z investment : float) :
  yes_price m = Some z ->
  PrimFloat.eqb z 0 = true ->
  match price m with Some x => truthy x = false | None => True end ->
  let m' := {| id := id m; title := title m; question := question m;
               yes_price := Some 0.5%float; price := price m |} in
  yesPrice m = 0.5%float
  /\ (1 - yesPrice m)%float = 0.5%float
  /\ calculateArbitrage cfg m other investment
     = calculateArbitrage cfg m' other investment
  /\ calculateArbitrage cfg other m investment
     = calculateArbitrage cfg other m' investment.
Proof.
  intros Hy Hz Hp m'.
  assert (E : yesPrice m = 0.5%float).
  { unfold yesPrice, js_or. rewrite Hy.
    assert (T : truthy z = false).
    { cbn. unfold F64.truthy, PrimFloat.is_zero.
      change PrimFloat.zero with 0%float. rewrite Hz. reflexivity. }
    rewrite T. destruct (price m) as [x|]; [rewrite Hp|]; reflexivity. }
  assert (E' : yesPrice m' = 0.5%float) by reflexivity.
  split; [exact E|]. split; [rewrite E; reflexivity|].
  unfold calculateArbitrage. rewrite E, E'. split; reflexivity.
Qed.

Lemma zero_yes_price_is_read_as_one_half_witness :
  let m : Market float := {| id := "k"; title := None; question := None;
                             yes_price := Some 0%float; price := None |} in
  yesPrice m = 0.5%float.
Proof.
  intros m.
  exact (proj1 (zero_yes_price_is_read_as_one_half CONFIG m m 0%float 100%float
                  eq_refl eq_refl I)).
Defined.

(** ** [arbitrage.js]: lexical similarity and matching *)

(** Entity extraction on a sample title.  [York1] ends no name, since a
    digit follows it without a word boundary, so the name match backs off
    to [New]; the dot of [3.5] is blanked before the numbers are read. *)
Example extractKeyEntities_sample :
  let e :=
    extractKeyEntities "Will Donald Trump win in New York1 by 2028? 3.5%" in
  str (normalized e) = "will donald trump win in new york1 by 2028  3 5"
  /\ years e = {[ "2028" ]}
  /\ words e = {[ "donald"; "trump"; "win"; "new"; "york1"; "2028" ]}
  /\ names e = {[ "will donald trump"; "new" ]}
  /\ numbers e = {[ "2028"; "3"; "5" ]}.
Proof. vm_compute. repeat split; reflexivity. Qed.

Section MatchingFacts.
Context {num : Type} `{Number num}.
Local Open Scope num_scope.

Lemma common_elements_comm (a b : gset string) :
  filter (fun x => x ∈ b) a = filter (fun x => x ∈ a) b.
Proof. apply set_eq. intros x. rewrite !elem_of_filter. tauto. Qed.

Lemma overlap_comm (a b : gset string) : overlap a b = overlap b a.
Proof.
  unfold overlap. cbv zeta.
  rewrite (common_elements_comm a b), (union_comm_L a b). reflexivity.
Qed.

(** C7.  Lexical similarity is symmetric, on every number instance: the
    two calls go through the same tests and compute the same score. *)
Theorem calculateSimilarity_symmetric (a b : string) :
  calculateSimilarity a b = calculateSimilarity b a.
Proof.
  unfold calculateSimilarity.
  rewrite (orb_comm (String.eqb a "")).
  destruct (String.eqb b "" || String.eqb a ""); [reflexivity|].
  cbv zeta.
  generalize (extractKeyEntities a) (extractKeyEntities b). intros e1 e2.
  rewrite (bool_decide_ext (normalized e1 = normalized e2)
             (normalized e2 = normalized e1)) by (split; congruence).
  destruct (bool_decide (normalized e2 = normalized e1)); [reflexivity|].
  rewrite (orb_comm (Str.includes (normalized e1) (normalized e2))).
  destruct (_ || _); [reflexivity|].
  rewrite (common_elements_comm (years e1) (years e2)).
  rewrite (andb_comm (0 <? size (years e1))%nat).
  destruct (_ && _ && _); [reflexivity|].
  rewrite (orb_comm (0 <? size (names e1))%nat).
  rewrite (orb_comm (0 <? size (numbers e1))%nat).
  rewrite (overlap_comm (names e1)), (overlap_comm (words e1)),
    (overlap_comm (numbers e1)).
  reflexivity.
Qed.

Lemma includes_refl (s : list ascii) : Str.includes s s = true.
Proof.
  assert (P : forall t : list ascii, Str.starts_with t t = true).
  { intros t. induction t as [|c t IH]; [reflexivity|].
    cbn. destruct (ascii_dec c c); [exact IH | congruence]. }
  destruct s; cbn; [reflexivity|].
  destruct (ascii_dec a a); [|congruence]. rewrite P. reflexivity.
Qed.

(** C5, as the code has it.  The year gate stands behind the two text
    tests: when the year sets of two titles are both non-empty and
    disjoint, and neither normalized title contains the other, the
    similarity is 0, whatever words, names and numbers the titles share. *)
Theorem calculateSimilarity_year_gate (a b : string) :
  years (extractKeyEntities a) <> ∅ ->
  years (extractKeyEntities b) <> ∅ ->
  years (extractKeyEntities a) ## years (extractKeyEntities b) ->
  Str.includes (normalized (extractKeyEntities a))
    (normalized (extractKeyEntities b)) = false ->
  Str.includes (normalized (extractKeyEntities b))
    (normalized (extractKeyEntities a)) = false ->
  calculateSimilarity a b = dec 0 0.
Proof.
  unfold calculateSimilarity.
  destruct (String.eqb a "" || String.eqb b ""); [reflexivity|].
  cbv zeta.
  generalize (extractKeyEntities a) (extractKeyEntities b).
  intros e1 e2 N1 N2 D I12 I21.
  destruct (bool_decide_reflect (normalized e1 = normalized e2)) as [E|_].
  { rewrite E, includes_refl in I12. discriminate. }
  rewrite I12, I21. cbn [orb].
  assert (S1 : (0 <? size (years e1))%nat = true).
  { apply Nat.ltb_lt.
    assert (size (years e1) <> 0%nat); [|lia].
    apply size_non_empty_iff. intros E. apply N1. apply leibniz_equiv.
    exact E. }
  assert (S2 : (0 <? size (years e2))%nat = true).
  { apply Nat.ltb_lt.
    assert (size (years e2) <> 0%nat); [|lia].
    apply size_non_empty_iff. intros E. apply N2. apply leibniz_equiv.
    exact E. }
  assert (S3 : filter (fun y => y ∈ years e2) (years e1) = ∅).
  { apply set_eq. intros x. rewrite elem_of_filter, elem_of_empty.
    split; [intros [Hx Hy]; exact (D x Hy Hx) | intros []]. }
  rewrite S1, S2, S3, size_empty. reflexivity.
Qed.

End MatchingFacts.

Lemma calculateSimilarity_year_gate_witness :
  calculateSimilarity (num:=float)
    "Will Bitcoin close above 100k by 2026?"
    "Will Bitcoin close above 100k by 2030?" = 0%float.
Proof.
  change 0%float with (dec (num:=float) 0 0).
  apply (calculateSimilarity_year_gate (num:=float)
           "Will Bitcoin close above 100k by 2026?"
           "Will Bitcoin close above 100k by 2030?");
    try (apply (bool_decide_unpack _); vm_compute; exact I);
    vm_compute; reflexivity.
Defined.

(** C5, as stated, fails: the year sets of these two titles are [{2030}]
    and [{2026}], non-empty and disjoint, but the second normalized title
    is a prefix of the first, and the containment test answers 0.85 before
    the year gate is reached. *)
Lemma calculateSimilarity_containment_before_year_gate :
  let a := "BTC above 20260 in 2030" in
  let b := "BTC above 2026" in
  years (extractKeyEntities a) = {[ "2030" ]}
  /\ years (extractKeyEntities b) = {[ "2026" ]}
  /\ years (extractKeyEntities a) <> ∅
  /\ years (extractKeyEntities b) <> ∅
  /\ years (extractKeyEntities a) ## years (extractKeyEntities b)
  /\ calculateSimilarity (num:=float) a b = 0.85%float
  /\ calculateSimilarity (num:=float) a b <> 0%float
  /\ (calculateSimilarity (num:=Q) a b == 85 # 100)%Q.
Proof.
  intros a b.
  repeat split;
    try (apply (bool_decide_unpack _); vm_compute; exact I);
    try (vm_compute; reflexivity).
  vm_compute. intros E. discriminate E.
Qed.

Section Exclusivity.
Context {num : Type} `{Number num}.
Local Open Scope num_scope.

Lemma bestCandidate_unclaimed used minSimilarity k ps b sim :
  bestCandidate used minSimilarity k ps = (Some b, sim) ->
  (id b ∉ used) /\ (b ∈ ps).
Proof.
  unfold bestCandidate.
  match goal with |- context [fold_left ?g _ _] => set (f := g) end.
  assert (G : forall l acc,
             (forall x, x ∈ l -> x ∈ ps) ->
             (forall b, fst acc = Some b -> (id b ∉ used) /\ (b ∈ ps)) ->
             forall b, fst (fold_left f l acc) = Some b ->
                       (id b ∉ used) /\ (b ∈ ps)).
  { induction l as [|p l IH]; intros acc Hl Hacc b0 Hb; [eauto|].
    cbn [fold_left] in Hb. apply (IH (f acc p)); [| |exact Hb].
    - intros x Hx. apply Hl. right. exact Hx.
    - intros b1. destruct acc as [bm bs]. unfold f.
      destruct (bool_decide_reflect (id p ∈ used)) as [Hin|Hout].
      + apply Hacc.
      + destruct (_ && _); [|apply Hacc].
        cbn. intros [= <-]. split; [exact Hout|]. apply Hl. left. }
  intros E. apply (G ps (None, dec 0 0)); [auto | discriminate |].
  rewrite E. reflexivity.
Qed.

Lemma matchLoop_invariant ps minSimilarity :
  forall ks matches used out,
    (forall m, m ∈ matches -> id (polymarket m) ∈ used) ->
    NoDup ((fun m => id (polymarket m)) <$> matches) ->
    out = fst (fold_left (matchStep ps minSimilarity) ks (matches, used)) ->
    NoDup ((fun m => id (polymarket m)) <$> out)
    /\ (exists l, kalshi <$> out = (kalshi <$> matches) ++ l
                  /\ l `sublist_of` ks)
    /\ (forall m, m ∈ out -> (m ∈ matches) \/ (polymarket m ∈ ps)).
Proof.
  induction ks as [|k ks IH]; intros matches used out Hused Hnd ->;
    cbn [fold_left fst].
  - split; [exact Hnd|]. split; [|auto].
    exists []. rewrite app_nil_r. split; [reflexivity | constructor].
  - unfold matchStep at 2 4 6.
    destruct (bestCandidate used minSimilarity k ps) as [[b|] sim] eqn:E.
    + apply bestCandidate_unclaimed in E as [Hfresh Hin].
      set (new := {| kalshi := k; polymarket := b; similarity := sim;
                     matchConfidence := confidence sim |}).
      assert (Hused' : forall m, m ∈ matches ++ [new] ->
                                 id (polymarket m) ∈ {[ id b ]} ∪ used);
        [|assert (Hnd' : NoDup ((fun m => id (polymarket m))
                                  <$> matches ++ [new]));
          [|destruct (IH (matches ++ [new]) ({[ id b ]} ∪ used) _
                        Hused' Hnd' eq_refl) as (N & (l & El & Sl) & P)]].
      * intros m Hm. apply elem_of_app in Hm as [Hm|Hm].
        -- apply elem_of_union_r. apply Hused. exact Hm.
        -- apply list_elem_of_singleton in Hm. subst m.
           apply elem_of_union_l. apply elem_of_singleton. reflexivity.
      * rewrite fmap_app. apply NoDup_app. split; [exact Hnd|]. split.
        -- intros x Hx Hx'. cbn in Hx'. apply list_elem_of_singleton in Hx'.
           subst x. apply list_elem_of_fmap in Hx as (m & Em & Hm).
           apply Hfresh. rewrite Em. apply Hused. exact Hm.
        -- cbn. apply NoDup_singleton.
      * split; [exact N|]. split.
        -- exists (k :: l). rewrite El, fmap_app, <- app_assoc. cbn.
           split; [reflexivity|]. constructor. exact Sl.
        -- intros m Hm. destruct (P m Hm) as [Hm'|Hm']; [|right; exact Hm'].
           apply elem_of_app in Hm' as [Hm'|Hm']; [left; exact Hm'|].
           apply list_elem_of_singleton in Hm'. subst m. right. exact Hin.
    + destruct (IH matches used _ Hused Hnd eq_refl) as (N & (l & El & Sl) & P).
      split; [exact N|]. split; [|exact P].
      exists l. split; [exact El|]. apply sublist_cons. exact Sl.
Qed.

(** C6, as the code has it.  In the output of [findMatchingMarkets] the
    Polymarket ids are pairwise distinct: a market id claimed into the used
    set is never paired again.  The Kalshi markets of the output are a
    subsequence of the Kalshi input, each entry paired at most once, so the
    Kalshi ids of the output are pairwise distinct when the input list
    repeats no id.  Every Polymarket market paired is one of the
    input's. *)
Theorem findMatchingMarkets_exclusive
    (kalshiMarkets polymarketMarkets : list (Market num))
    (minSimilarity : num) :
  let out := findMatchingMarkets kalshiMarkets polymarketMarkets
               minSimilarity in
  NoDup (map (fun m => id (polymarket m)) out)
  /\ map kalshi out `sublist_of` kalshiMarkets
  /\ (NoDup (map id kalshiMarkets) ->
      NoDup (map (fun m => id (kalshi m)) out))
  /\ Forall (fun m => polymarket m ∈ polymarketMarkets) out.
Proof.
  intros out.
  destruct (matchLoop_invariant polymarketMarkets minSimilarity
              kalshiMarkets [] ∅ out) as (N & (l & El & Sl) & P).
  { intros m Hm. apply elem_of_nil in Hm. destruct Hm. }
  { constructor. }
  { reflexivity. }
  cbn in El. subst l.
  split; [exact N|]. split; [exact Sl|]. split.
  - intros Hnd.
    replace (map (fun m => id (kalshi m)) out) with (id <$> (kalshi <$> out))
      by (rewrite <- list_fmap_compose; reflexivity).
    apply (sublist_NoDup _ (id <$> kalshiMarkets)); [exact Hnd|].
    apply fmap_sublist. exact Sl.
  - apply Forall_forall. intros m Hm.
    destruct (P m Hm) as [Hm'|Hm']; [|exact Hm'].
    apply elem_of_nil in Hm'. destruct Hm'.
Qed.

End Exclusivity.

Lemma findMatchingMarkets_exclusive_witness :
  NoDup (map (fun m => id (kalshi m))
           (findMatchingMarkets (num:=float) MOCK_kalshi MOCK_polymarket
              (dec 4 1))).
Proof.
  apply (proj1 (proj2 (proj2 (findMatchingMarkets_exclusive (num:=float)
                                MOCK_kalshi MOCK_polymarket (dec 4 1))))).
  apply (bool_decide_unpack _). vm_compute. exact I.
Defined.

(** C6, as stated, fails on a Kalshi list that holds a market twice: the
    first copy takes the best Polymarket market, the second copy the next
    one, and the Kalshi id stands in two pairs. *)
Lemma findMatchingMarkets_repeated_kalshi_market :
  let k : Market float := market "K1" "Will Trump win 2028?" 50 2 in
  let p1 : Market float := market "P1" "Will Trump win 2028?" 50 2 in
  let p2 : Market float :=
    market "P2" "Will Trump win the election 2028?" 50 2 in
  let out := findMatchingMarkets [k; k] [p1; p2] (dec 4 1) in
  map (fun m => (id (kalshi m), id (polymarket m))) out
  = [("K1", "P1"); ("K1", "P2")]
  /\ ~ NoDup (map (fun m => id (kalshi m)) out).
Proof.
  intros k p1 p2 out.
  assert (E : map (fun m => (id (kalshi m), id (polymarket m))) out
              = [("K1", "P1"); ("K1", "P2")]) by (vm_compute; reflexivity).
  split; [exact E|].
  assert (E' : map (fun m => id (kalshi m)) out = ["K1"; "K1"])
    by (vm_compute; reflexivity).
  rewrite E'. intros N. apply NoDup_cons in N as [N _].
  apply N. left.
Qed.

(** The mock data at the default threshold: two pairs, the third Kalshi
    market has no counterpart. *)
Example findMatchingMarkets_mock :
  map (fun m => (id (kalshi m), id (polymarket m), matchConfidence m))
      (findMatchingMarkets (num:=float) MOCK_kalshi MOCK_polymarket (dec 4 1))
  = [("KXWARMING-50", "516800", "low");
     ("KXMARSVRAIL-50", "516801", "medium")].
Proof. vm_compute. reflexivity. Qed.

(** ** [vector-matcher.js]: cosine similarity *)

Section CosineFacts.
Local Open Scope float_scope.

Lemma is_zero_shape x : PrimFloat.is_zero x = true -> SF.zero x.
Proof.
  unfold PrimFloat.is_zero, SF.zero. rewrite FloatAxioms.eqb_spec.
  change (Prim2SF PrimFloat.zero) with (S754_zero false).
  destruct (Prim2SF x) as [s| | |s m e]; cbn; try discriminate; eauto;
    destruct s; discriminate.
Qed.

Lemma is_nan_shape x : SF.nan x -> PrimFloat.is_nan x = true.
Proof.
  unfold SF.nan, PrimFloat.is_nan. intros E. rewrite FloatAxioms.eqb_spec, E. reflexivity.
Qed.

Lemma mul_zero_l a b : SF.zero a -> SF.zero (a * b) \/ SF.nan (a * b).
Proof.
  unfold SF.zero, SF.nan. intros [s E]. rewrite mul_spec, E.
  destruct (Prim2SF b); cbn; eauto.
Qed.

Lemma mul_zero_r a b : SF.zero b -> SF.zero (a * b) \/ SF.nan (a * b).
Proof.
  unfold SF.zero, SF.nan. intros [s E]. rewrite mul_spec, E.
  destruct (Prim2SF a); cbn; eauto.
Qed.

Lemma mul_zero_self a : SF.zero a -> SF.pzero (a * a).
Proof.
  unfold SF.zero, SF.pzero. intros [s E]. rewrite mul_spec, E.
  destruct s; reflexivity.
Qed.

Lemma add_pzero_or_nan d t :
  SF.pzero d \/ SF.nan d -> SF.zero t \/ SF.nan t ->
  SF.pzero (d + t) \/ SF.nan (d + t).
Proof.
  unfold SF.zero, SF.pzero, SF.nan. intros [E|E] [[s E']|E'];
    rewrite add_spec, E, E'; cbn; auto.
  destruct s; auto.
Qed.

Lemma add_pzero n t : SF.pzero n -> SF.pzero t -> SF.pzero (n + t).
Proof.
  unfold SF.pzero. intros E E'. rewrite add_spec, E, E'. reflexivity.
Qed.

Lemma sqrt_pzero n : SF.pzero n -> SF.pzero (PrimFloat.sqrt n).
Proof. unfold SF.pzero. intros E. rewrite sqrt_spec, E. reflexivity. Qed.

Lemma div_by_zero_or_nan d q :
  SF.pzero d \/ SF.nan d -> SF.zero q \/ SF.nan q -> SF.nan (d / q).
Proof.
  unfold SF.zero, SF.pzero, SF.nan. intros [E|E] [[s E']|E'];
    rewrite div_spec, E, E'; reflexivity.
Qed.

Lemma pzero_zero x : SF.pzero x -> SF.zero x.
Proof. intros E. exists false. exact E. Qed.

Lemma zip_zero_l (v1 v2 : list float) :
  zeroVector v1 -> Forall (fun ab => SF.zero (fst ab)) (zip v1 v2).
Proof.
  intros Z. revert v2. induction Z as [|a v1 Ha Z IH]; intros [|b v2];
    cbn; constructor; auto using is_zero_shape.
Qed.

Lemma zip_zero_r (v1 v2 : list float) :
  zeroVector v2 -> Forall (fun ab => SF.zero (snd ab)) (zip v1 v2).
Proof.
  intros Z. revert v1. induction Z as [|b v2 Hb Z IH]; intros [|a v1];
    cbn; constructor; auto using is_zero_shape.
Qed.

Lemma cosineSums_zero_l (v1 v2 : list float) :
  zeroVector v1 ->
  let '(dotProduct, norm1, _) := cosineSums v1 v2 in
  (SF.pzero dotProduct \/ SF.nan dotProduct) /\ SF.pzero norm1.
Proof.
  intros Z. apply (zip_zero_l v1 v2) in Z. unfold cosineSums.
  assert (G : forall d n1 n2,
             SF.pzero d \/ SF.nan d -> SF.pzero n1 ->
             let '(d', n1', _) :=
               fold_left cosineStep (zip v1 v2) (d, n1, n2) in
             (SF.pzero d' \/ SF.nan d') /\ SF.pzero n1').
  { induction Z as [|[a b] l Ha Z IH]; intros d n1 n2 Hd Hn; cbn [fold_left].
    - split; assumption.
    - cbn [cosineStep]. cbn [fst] in Ha. apply IH.
      + apply add_pzero_or_nan; [exact Hd | apply mul_zero_l; exact Ha].
      + apply add_pzero; [exact Hn | apply mul_zero_self; exact Ha]. }
  apply G; [left|]; reflexivity.
Qed.

Lemma cosineSums_zero_r (v1 v2 : list float) :
  zeroVector v2 ->
  let '(dotProduct, _, norm2) := cosineSums v1 v2 in
  (SF.pzero dotProduct \/ SF.nan dotProduct) /\ SF.pzero norm2.
Proof.
  intros Z. apply (zip_zero_r v1 v2) in Z. unfold cosineSums.
  assert (G : forall d n1 n2,
             SF.pzero d \/ SF.nan d -> SF.pzero n2 ->
             let '(d', _, n2') :=
               fold_left cosineStep (zip v1 v2) (d, n1, n2) in
             (SF.pzero d' \/ SF.nan d') /\ SF.pzero n2').
  { induction Z as [|[a b] l Hb Z IH]; intros d n1 n2 Hd Hn; cbn [fold_left].
    - split; assumption.
    - cbn [cosineStep]. cbn [snd] in Hb. apply IH.
      + apply add_pzero_or_nan; [exact Hd | apply mul_zero_r; exact Hb].
      + apply add_pzero; [exact Hn | apply mul_zero_self; exact Hb]. }
  apply G; [left|]; reflexivity.
Qed.

Lemma cosineSimilarity_sums (v1 v2 : list float) :
  length v1 = length v2 ->
  cosineSimilarity (Some v1) (Some v2) =
  let '(dotProduct, norm1, norm2) := cosineSums v1 v2 in
  dotProduct / (PrimFloat.sqrt norm1 * PrimFloat.sqrt norm2).
Proof.
  intros E. unfold cosineSimilarity.
  rewrite (proj2 (Nat.eqb_eq _ _) E). reflexivity.
Qed.

End CosineFacts.

(** C10.  [cosineSimilarity] answers 0 for an absent vector and for
    vectors of different lengths, and for nothing else by a test of its
    own: on vectors of equal length it is the quotient of the dot product
    by the product of the square roots of the squared norms, with no guard
    on the divisor.  When one of the vectors has zero norm (all its
    components are zeros) the result is [NaN], whatever the other vector
    holds. *)
Theorem cosineSimilarity_zero_norm_is_NaN :
  (forall v, cosineSimilarity None v = 0%float
             /\ cosineSimilarity v None = 0%float)
  /\ (forall v1 v2, length v1 <> length v2 ->
                    cosineSimilarity (Some v1) (Some v2) = 0%float)
  /\ (forall v1 v2, length v1 = length v2 ->
        cosineSimilarity (Some v1) (Some v2) =
        let '(dotProduct, norm1, norm2) := cosineSums v1 v2 in
        (dotProduct / (PrimFloat.sqrt norm1 * PrimFloat.sqrt norm2))%float)
  /\ (forall v1 v2, length v1 = length v2 ->
        zeroVector v1 \/ zeroVector v2 ->
        PrimFloat.is_nan (cosineSimilarity (Some v1) (Some v2)) = true).
Proof.
  split; [intros [v|]; split; reflexivity|].
  split.
  { intros v1 v2 E. unfold cosineSimilarity.
    destruct (Nat.eqb_spec (length v1) (length v2)); [contradiction|].
    reflexivity. }
  split; [exact cosineSimilarity_sums|].
  intros v1 v2 E Z. rewrite (cosineSimilarity_sums v1 v2 E).
  apply is_nan_shape.
  destruct Z as [Z|Z].
  - pose proof (cosineSums_zero_l v1 v2 Z) as I.
    destruct (cosineSums v1 v2) as [[d n1] n2]. destruct I as [Hd Hn].
    apply div_by_zero_or_nan; [exact Hd|].
    apply mul_zero_l, pzero_zero, sqrt_pzero, Hn.
  - pose proof (cosineSums_zero_r v1 v2 Z) as I.
    destruct (cosineSums v1 v2) as [[d n1] n2]. destruct I as [Hd Hn].
    apply div_by_zero_or_nan; [exact Hd|].
    apply mul_zero_r, pzero_zero, sqrt_pzero, Hn.
Qed.

Lemma cosineSimilarity_zero_norm_is_NaN_witness :
  PrimFloat.is_nan (cosineSimilarity (Some [0; 0]%float) (Some [1; 2]%float))
  = true.
Proof.
  apply (proj2 (proj2 (proj2 cosineSimilarity_zero_norm_is_NaN))).
  - reflexivity.
  - left. repeat constructor.
Defined.

(** Vectors of equal length and non-zero norm go through the quotient:
    orthogonal vectors score 0 without the guard, and a norm that
    underflows to zero gives an infinity. *)
Example cosineSimilarity_unguarded :
  cosineSimilarity (Some [1; 0]%float) (Some [0; 1]%float) = 0%float
  /\ cosineSimilarity (Some [1e-200]%float) (Some [1e150]%float)
     = PrimFloat.infinity
  /\ PrimFloat.is_nan (cosineSimilarity (Some []) (Some [])) = true.
Proof. vm_compute. repeat split; reflexivity. Qed.

(** ** [backend/routes]: reads during a refresh *)

(** C8, on the code.  The exported system module carries no [isIndexing],
    so the guard of the opportunities route never fires: a read request is
    passed on to the index query in every state of a refresh, and no trace
    of requests draws a 503. *)
Theorem read_during_refresh_queries_the_index :
  (forall st, Routes.getOpportunities Routes.system st = Routes.QueriesIndex)
  /\ Routes.serve Routes.Idle
       [Routes.PostRefresh; Routes.Resume; Routes.GetOpportunities]
     = [(true, Routes.QueriesIndex)]
  /\ (forall st trace,
        Forall (fun r => snd r = Routes.QueriesIndex) (Routes.serve st trace)).
Proof.
  split; [reflexivity|]. split; [reflexivity|].
  intros st trace. revert st.
  induction trace as [|e trace IH]; intros st; cbn.
  - constructor.
  - destruct e; cbn; try apply IH.
    constructor; [reflexivity | apply IH].
Qed.
